(** * Per-user rate limiters: sliding window and throttling

    A shallow embedding of [sliding_window_rate_limiter.py] and
    [throttling_rate_limiter.py].

    - Time stamps ([time.time()], Python floats, seconds) are exact rationals
      [Q]; every comparison of the source is the exact comparison.
    - Each call of [time.time()] in the source is a separate argument of the
      embedded method, in the order the source reads the clock.
    - [self.history] is a finite map from user identifiers to the per-user
      value; a [deque] is a list, oldest element first.
    - A method is a computation over the history that either returns a value
      or raises a Python exception; the history it leaves behind is kept in
      both cases. *)

From Stdlib Require Import QArith Qminmax Lqa Sorted.
From stdpp Require Import gmap strings list pretty.

Open Scope Q_scope.

(** ** Python values and exceptions *)

Inductive exn : Type :=
  | KeyError (key : string)
  | IndexError.

Inductive outcome (A : Type) : Type :=
  | Returned (a : A)
  | Raised (e : exn).
Arguments Returned {A} a.
Arguments Raised {A} e.

(** [a < b] on time stamps, as a boolean. *)
Definition Qltb (a b : Q) : bool :=
  match a ?= b with Lt => true | _ => false end.

(** Python's [max(a, b)]: the first argument unless the second is strictly
    greater. *)
Definition py_max (a b : Q) : Q :=
  if Qltb a b then b else a.

(** ** State-and-exception computations *)

Definition M (S A : Type) : Type := S -> outcome A * S.

Definition ret {S A : Type} (a : A) : M S A :=
  fun s => (Returned a, s).

Definition raise {S A : Type} (e : exn) : M S A :=
  fun s => (Raised e, s).

Definition bind {S A B : Type} (m : M S A) (k : A -> M S B) : M S B :=
  fun s =>
    match m s with
    | (Returned a, s') => k a s'
    | (Raised e, s') => (Raised e, s')
    end.

Declare Scope py_scope.
Delimit Scope py_scope with py.
Notation "x <- m ;; k" := (bind m (fun x => k))
  (at level 100, m at next level, right associativity) : py_scope.
Notation "m ;; k" := (bind m (fun _ => k))
  (at level 100, right associativity) : py_scope.

(** The dictionary operations the two classes use on [self.history]. *)
Section Dict.
Context {V : Type}.

(** [user_id in self.history] *)
Definition contains (user_id : string) : M (gmap string V) bool :=
  fun h => (Returned (bool_decide (is_Some (h !! user_id))), h).

(** [self.history[user_id]], a [KeyError] when the key is missing *)
Definition getitem (user_id : string) : M (gmap string V) V :=
  fun h =>
    match h !! user_id with
    | Some v => (Returned v, h)
    | None => (Raised (KeyError user_id), h)
    end.

(** [self.history[user_id] = v] *)
Definition setitem (user_id : string) (v : V) : M (gmap string V) unit :=
  fun h => (Returned tt, <[user_id := v]> h).

(** [del self.history[user_id]], a [KeyError] when the key is missing *)
Definition delitem (user_id : string) : M (gmap string V) unit :=
  fun h =>
    match h !! user_id with
    | Some _ => (Returned tt, delete user_id h)
    | None => (Raised (KeyError user_id), h)
    end.
End Dict.

(** ** Calls and traces

    A caller issues calls one after the other on one limiter object; a call
    that raises leaves the object as it was when the exception was raised,
    and the caller goes on with the next call. *)

(** What a method hands back: a [bool] or a duration. *)
Inductive value : Type :=
  | VBool (b : bool)
  | VTime (t : Q).

(** A call of one of the three public methods for a user, with the clock
    readings the call makes, in the order it makes them. *)
Inductive call : Type :=
  | CanSend (user_id : string) (t : Q)
  | Record (user_id : string) (t1 t2 : Q)
  | TimeUntil (user_id : string) (t : Q).

Definition call_user (c : call) : string :=
  match c with
  | CanSend u _ | Record u _ _ | TimeUntil u _ => u
  end.


Definition as_bool {S : Type} (m : M S bool) : M S value :=
  fun s => match m s with
           | (Returned b, s') => (Returned (VBool b), s')
           | (Raised e, s') => (Raised e, s')
           end.

Definition as_time {S : Type} (m : M S Q) : M S value :=
  fun s => match m s with
           | (Returned t, s') => (Returned (VTime t), s')
           | (Raised e, s') => (Raised e, s')
           end.

(** Run the calls in order from history [h]: the outcomes, and the history
    at the end. *)
Fixpoint run {S : Type} (exec : call -> M S value) (cs : list call) (h : S)
  : list (outcome value) * S :=
  match cs with
  | [] => ([], h)
  | c :: cs' =>
      let '(r, h') := exec c h in
      let '(rs, h'') := run exec cs' h' in
      (r :: rs, h'')
  end.

(** The calls of a trace made for [user_id]. *)
Definition calls_of (user_id : string) (cs : list call) : list call :=
  filter (fun c => call_user c = user_id) cs.

(** The trace without the calls made for [user_id]. *)
Definition without (user_id : string) (cs : list call) : list call :=
  filter (fun c => call_user c <> user_id) cs.

(** The outcomes of a trace for the calls made for [user_id]. *)
Fixpoint outcomes_of (user_id : string) (cs : list call)
  (rs : list (outcome value)) : list (outcome value) :=
  match cs, rs with
  | c :: cs', r :: rs' =>
      if decide (call_user c = user_id)
      then r :: outcomes_of user_id cs' rs'
      else outcomes_of user_id cs' rs'
  | _, _ => []
  end.










(** ** SlidingWindowRateLimiter *)

Module SlidingWindow.

(** [self.window_size] and [self.max_requests], both Python [int]. *)
Record config : Type := Config {
  window_size : Z;
  max_requests : Z
}.

(** The constructor's defaults. *)
Definition default_config : config :=
  {| window_size := 10; max_requests := 1 |}.

(** [self.history : Dict[str, deque]] *)
Abbreviation history := (gmap string (list Q)).

(** [self.history = {}] *)
Definition init : history := ∅.

(** The [while] loop of [_cleanup_window] on the user's deque: [popleft]
    as long as the deque is non-empty and its first element is strictly
    below [bound]. *)
Fixpoint cleanup_loop (dq : list Q) (bound : Q) : list Q :=
  match dq with
  | [] => []
  | t :: rest => if Qltb t bound then cleanup_loop rest bound else t :: rest
  end.

(** Truth value of a deque: [not dq] holds for the empty deque. *)
Definition is_empty (dq : list Q) : bool :=
  match dq with [] => true | _ => false end.

Section Methods.
Variable cfg : config.
Open Scope py_scope.

(** [_cleanup_window]. The second [if] of the source is not nested in
    the first: it subscripts [self.history] also for a missing key. *)
Definition _cleanup_window (user_id : string) (current_time : Q)
  : M history unit :=
  present <- contains user_id ;;
  (if present : bool then
     dq <- getitem user_id ;;
     setitem user_id
       (cleanup_loop dq (current_time - inject_Z (window_size cfg)))
   else ret tt) ;;
  dq <- getitem user_id ;;
  if is_empty dq then delitem user_id else ret tt.

(** [can_send_message]; [current_time] is its [time.time()]. *)
Definition can_send_message (user_id : string) (current_time : Q)
  : M history bool :=
  _cleanup_window user_id current_time ;;
  present <- contains user_id ;;
  if present : bool then
    dq <- getitem user_id ;;
    ret (Z.of_nat (length dq) <? max_requests cfg)%Z
  else ret true.

(** [record_message]; [current_time] is the [time.time()] of its first
    line, [check_time] the one read inside [can_send_message]. *)
Definition record_message (user_id : string) (current_time check_time : Q)
  : M history bool :=
  ok <- can_send_message user_id check_time ;;
  if ok : bool then
    present <- contains user_id ;;
    (if negb present then setitem user_id [] else ret tt) ;;
    dq <- getitem user_id ;;
    setitem user_id (dq ++ [current_time]) ;;
    ret true
  else ret false.

(** [self.history[user_id][-1]], an [IndexError] on an empty deque. *)
Definition newest (dq : list Q) : M history Q :=
  match last dq with
  | Some t => ret t
  | None => raise IndexError
  end.

(** [time_until_next_allowed]; [current_time] is its [time.time()]. *)
Definition time_until_next_allowed (user_id : string) (current_time : Q)
  : M history Q :=
  _cleanup_window user_id current_time ;;
  present <- contains user_id ;;
  if present : bool then
    dq <- getitem user_id ;;
    t <- newest dq ;;
    ret (py_max 0 (inject_Z (window_size cfg) - (current_time - t)))
  else ret 0.

End Methods.

(** What the eviction loop keeps of [dq] at clock reading [now]. *)
Definition retained (cfg : config) (now : Q) (dq : list Q) : list Q :=
  cleanup_loop dq (now - inject_Z (window_size cfg)).

(** The history after [_cleanup_window] found [dq] left for [user_id]: the
    entry is deleted when nothing is left. *)
Definition store (user_id : string) (dq : list Q) (h : history) : history :=
  if is_empty dq then delete user_id h else <[user_id := dq]> h.

(** The answer of [can_send_message] when the eviction left [dq]: an empty
    deque is deleted and the user then counts as new. *)
Definition admits (cfg : config) (dq : list Q) : bool :=
  match dq with
  | [] => true
  | _ => (Z.of_nat (length dq) <? max_requests cfg)%Z
  end.



(** One call on a sliding-window limiter. The first reading of [Record] is
    the one of [record_message] itself, the second the one of the
    [can_send_message] it calls. *)
Definition exec (cfg : config) (c : call) : M history value :=
  match c with
  | CanSend u t => as_bool (can_send_message cfg u t)
  | Record u t1 t2 => as_bool (record_message cfg u t1 t2)
  | TimeUntil u t => as_time (time_until_next_allowed cfg u t)
  end.



(** A deque as the limiter keeps it at clock reading [clk]: non-empty, in
    ascending order, no time stamp later than [clk]. *)
Definition deque_ok (clk : Q) (dq : list Q) : Prop :=
  dq <> [] /\ Sorted Qle dq /\ Forall (fun t => t <= clk) dq.

Definition well_formed (clk : Q) (h : history) : Prop :=
  map_Forall (fun _ dq => deque_ok clk dq) h.

End SlidingWindow.

(** ** ThrottlingRateLimiter *)

Module Throttling.

(** [self.history : Dict[str, float]] *)
Abbreviation history := (gmap string Q).

(** [self.history = {}] *)
Definition init : history := ∅.

(** The constructor's default [min_interval]. *)
Definition default_min_interval : Q := 10.

Section Methods.
(** [self.min_interval] *)
Variable min_interval : Q.
Open Scope py_scope.

(** [can_send_message]; [now] is its [time.time()], read only when the
    user has an entry. *)
Definition can_send_message (user_id : string) (now : Q)
  : M history bool :=
  present <- contains user_id ;;
  if present : bool then
    last_message_time <- getitem user_id ;;
    let time_since_last_message := now - last_message_time in
    ret (Qle_bool min_interval time_since_last_message)
  else ret true.

(** [record_message]; [check_time] is the clock read by
    [can_send_message], [now] the one stored in the history. *)
Definition record_message (user_id : string) (check_time now : Q)
  : M history bool :=
  ok <- can_send_message user_id check_time ;;
  if ok : bool then
    setitem user_id now ;;
    ret true
  else ret false.

(** [time_until_next_allowed]; [now] is its [time.time()]. *)
Definition time_until_next_allowed (user_id : string) (now : Q)
  : M history Q :=
  present <- contains user_id ;;
  if present : bool then
    last_message_time <- getitem user_id ;;
    let time_since_last_message := now - last_message_time in
    ret (py_max 0 (min_interval - time_since_last_message))
  else ret 0.

End Methods.

(** One call on a throttling limiter. The first reading of [Record] is the
    one of the [can_send_message] it calls, the second the one it stores. *)
Definition exec (min_interval : Q) (c : call) : M history value :=
  match c with
  | CanSend u t => as_bool (can_send_message min_interval u t)
  | Record u t1 t2 => as_bool (record_message min_interval u t1 t2)
  | TimeUntil u t => as_time (time_until_next_allowed min_interval u t)
  end.

End Throttling.

(** ** Further notions on histories and traces *)

(** No stored deque is longer than [max_requests]. *)
Definition within_capacity (cfg : SlidingWindow.config)
  (h : SlidingWindow.history) : Prop :=
  forall u dq, h !! u = Some dq ->
    (Z.of_nat (length dq) <= SlidingWindow.max_requests cfg)%Z.




(** The users for whom the trace calls [record_message]. *)
Fixpoint recorded_users (cs : list call) : gset string :=
  match cs with
  | [] => ∅
  | Record u _ _ :: cs' => {[ u ]} ∪ recorded_users cs'
  | _ :: cs' => recorded_users cs'
  end.


(** ** The demonstrations [test_rate_limiter] and [test_throttling_limiter]

    Both run two loops over message numbers and call, for each message,
    [record_message] and then [time_until_next_allowed] for the user
    [str(message_id % 5 + 1)]. [time.sleep] and [random.uniform] only move
    the clock: the readings of each message are given by [clock]. Of the
    output, the values of each message line are kept, not its text; the
    headings are left out. No exception is caught: the first one ends the
    run. *)

(** [str(n)] of a non-negative [int]. *)
Definition str (n : nat) : string := pretty n.

(** The values one message line prints. [wait_time] is computed for every
    message and shown for a rejected one. *)
Record line : Type := Line {
  message_id : nat;
  user_id : nat;
  result : bool;
  wait_time : Q
}.

(** The clock readings of one loop iteration: two in [record_message], in
    the order they are made, then one in [time_until_next_allowed]. *)
Record readings : Type := Readings {
  record_first : Q;
  record_second : Q;
  wait_reading : Q
}.

Section Demo.
Context {S : Type}.
(** The two methods of the limiter under demonstration. *)
Variable record_message : string -> Q -> Q -> M S bool.
Variable time_until_next_allowed : string -> Q -> M S Q.
Variable clock : nat -> readings.
Open Scope py_scope.

(** The body of the [for] loops. *)
Definition demo_message (message_id : nat) : M S line :=
  let user_id := (message_id mod 5 + 1)%nat in
  result <- record_message (str user_id)
              (record_first (clock message_id))
              (record_second (clock message_id)) ;;
  wait_time <- time_until_next_allowed (str user_id)
                 (wait_reading (clock message_id)) ;;
  ret (Line message_id user_id result wait_time).

(** A [for] loop over message numbers: the lines printed, how the loop
    ended, and the limiter's history then. *)
Fixpoint demo_loop (message_ids : list nat) (h : S)
  : list line * outcome unit * S :=
  match message_ids with
  | [] => ([], Returned tt, h)
  | i :: rest =>
      match demo_message i h with
      | (Returned l, h') =>
          let '(ls, r, h'') := demo_loop rest h' in (l :: ls, r, h'')
      | (Raised e, h') => ([], Raised e, h')
      end
  end.

(** The two loops, over [range(1, 11)] and [range(11, 21)]. *)
Definition demo (h : S) : list line * outcome unit * S :=
  match demo_loop (seq 1 10) h with
  | (ls, Returned _, h') =>
      let '(ls', r, h'') := demo_loop (seq 11 10) h' in (ls ++ ls', r, h'')
  | (ls, Raised e, h') => (ls, Raised e, h')
  end.

End Demo.

(** [test_rate_limiter]: a new limiter with [window_size=10],
    [max_requests=1]. *)
Definition test_rate_limiter (clock : nat -> readings)
  : list line * outcome unit * SlidingWindow.history :=
  let cfg := SlidingWindow.Config 10 1 in
  demo (SlidingWindow.record_message cfg)
       (SlidingWindow.time_until_next_allowed cfg) clock SlidingWindow.init.

(** [test_throttling_limiter]: a new limiter with [min_interval=10.0]. *)
Definition test_throttling_limiter (clock : nat -> readings)
  : list line * outcome unit * Throttling.history :=
  demo (Throttling.record_message 10)
       (Throttling.time_until_next_allowed 10) clock Throttling.init.


(** * Properties *)

(** ** Arithmetic on time stamps *)

Lemma Qltb_lt (a b : Q) : Qltb a b = true <-> a < b.
Proof.
  unfold Qltb. rewrite Qlt_alt. destruct (a ?= b); split; congruence.
Qed.

Lemma Qltb_ge (a b : Q) : Qltb a b = false <-> b <= a.
Proof.
  unfold Qltb. rewrite Qle_alt, <- (Qcompare_antisym a b).
  destruct (a ?= b); simpl; split; congruence.
Qed.



Lemma py_max_zero_iff (x : Q) : py_max 0 x == 0 <-> x <= 0.
Proof.
  unfold py_max. destruct (Qltb 0 x) eqn:E.
  - apply Qltb_lt in E. split; intros; lra.
  - apply Qltb_ge in E. split; intros; [lra | reflexivity].
Qed.

(** ** Dictionary access *)

Section DictFacts.
Context {V : Type}.
Implicit Types (h : gmap string V) (u : string).

Lemma contains_Some h u v :
  h !! u = Some v -> contains u h = (Returned true, h).
Proof.
  intros E. unfold contains. rewrite E.
  rewrite bool_decide_eq_true_2; [reflexivity | eauto].
Qed.

Lemma contains_None h u :
  h !! u = None -> contains u h = (Returned false, h).
Proof.
  intros E. unfold contains. rewrite E.
  rewrite bool_decide_eq_false_2; [reflexivity | apply is_Some_None].
Qed.

Lemma getitem_Some h u v :
  h !! u = Some v -> getitem u h = (Returned v, h).
Proof. intros E. unfold getitem. rewrite E. reflexivity. Qed.

Lemma getitem_None h u :
  h !! u = None -> getitem u h = (Raised (KeyError u), h).
Proof. intros E. unfold getitem. rewrite E. reflexivity. Qed.

End DictFacts.

(** ** ThrottlingRateLimiter *)

Section ThrottlingFacts.
Variable min_interval : Q.
Implicit Types (h : Throttling.history) (u : string).

Lemma th_can_send_absent h u now :
  h !! u = None ->
  Throttling.can_send_message min_interval u now h = (Returned true, h).
Proof.
  intros E. unfold Throttling.can_send_message, bind.
  rewrite (contains_None _ _ E). reflexivity.
Qed.

Lemma th_can_send_present h u now last :
  h !! u = Some last ->
  Throttling.can_send_message min_interval u now h
  = (Returned (Qle_bool min_interval (now - last)), h).
Proof.
  intros E. unfold Throttling.can_send_message, bind.
  rewrite (contains_Some _ _ _ E), (getitem_Some _ _ _ E). reflexivity.
Qed.

Lemma th_time_until_absent h u now :
  h !! u = None ->
  Throttling.time_until_next_allowed min_interval u now h = (Returned 0, h).
Proof.
  intros E. unfold Throttling.time_until_next_allowed, bind.
  rewrite (contains_None _ _ E). reflexivity.
Qed.

Lemma th_time_until_present h u now last :
  h !! u = Some last ->
  Throttling.time_until_next_allowed min_interval u now h
  = (Returned (py_max 0 (min_interval - (now - last))), h).
Proof.
  intros E. unfold Throttling.time_until_next_allowed, bind.
  rewrite (contains_Some _ _ _ E), (getitem_Some _ _ _ E). reflexivity.
Qed.

Lemma th_record_accepted h u check_time now :
  Throttling.can_send_message min_interval u check_time h = (Returned true, h) ->
  Throttling.record_message min_interval u check_time now h
  = (Returned true, <[u := now]> h).
Proof.
  intros E. unfold Throttling.record_message, bind. rewrite E. reflexivity.
Qed.

Lemma th_record_rejected h u check_time now :
  Throttling.can_send_message min_interval u check_time h = (Returned false, h) ->
  Throttling.record_message min_interval u check_time now h
  = (Returned false, h).
Proof.
  intros E. unfold Throttling.record_message, bind. rewrite E. reflexivity.
Qed.





(** C10. At one clock reading, [time_until_next_allowed] returns zero
    exactly when [can_send_message] returns [True], for users with and
    without an entry; both calls leave the history as it was. *)
Theorem th_zero_wait_iff_can_send h u now :
  exists b r,
    Throttling.can_send_message min_interval u now h = (Returned b, h) /\
    Throttling.time_until_next_allowed min_interval u now h = (Returned r, h) /\
    (r == 0 <-> b = true).
Proof.
  destruct (h !! u) as [last|] eqn:E.
  - exists (Qle_bool min_interval (now - last)),
           (py_max 0 (min_interval - (now - last))).
    split; [apply th_can_send_present, E |].
    split; [apply th_time_until_present, E |].
    rewrite py_max_zero_iff, Qle_bool_iff. split; intros; lra.
  - exists true, 0.
    split; [apply th_can_send_absent, E |].
    split; [apply th_time_until_absent, E |].
    split; reflexivity.
Qed.

End ThrottlingFacts.

(** The boundary scenario: a message at [0], a check at [9.9], a message at
    [10.0], with [min_interval = 10]. *)
Example th_boundary_scenario :
  fst (run (Throttling.exec 10)
         [Record "B" 0 0; CanSend "B" (99 # 10); Record "B" 10 10]
         Throttling.init)
  = [Returned (VBool true); Returned (VBool false); Returned (VBool true)].
Proof. reflexivity. Qed.


(** ** SlidingWindowRateLimiter: the methods case by case *)

Section SlidingWindowFacts.
Variable cfg : SlidingWindow.config.
Implicit Types (h : SlidingWindow.history) (u : string) (dq : list Q).

Import SlidingWindow.

Lemma store_lookup u dq h :
  store u dq h !! u = match dq with [] => None | _ => Some dq end.
Proof.
  unfold store. destruct dq; simpl.
  - apply lookup_delete_eq.
  - apply lookup_insert_eq.
Qed.

Lemma store_lookup_ne u u' dq h :
  u <> u' -> store u dq h !! u' = h !! u'.
Proof.
  intros Hne. unfold store. destruct (is_empty dq).
  - apply lookup_delete_ne, Hne.
  - apply lookup_insert_ne, Hne.
Qed.

Lemma sw_cleanup_absent h u now :
  h !! u = None ->
  _cleanup_window cfg u now h = (Raised (KeyError u), h).
Proof.
  intros E. unfold _cleanup_window, bind.
  rewrite (contains_None _ _ E). simpl.
  rewrite (getitem_None _ _ E). reflexivity.
Qed.

Lemma sw_cleanup_present h u now dq :
  h !! u = Some dq ->
  _cleanup_window cfg u now h = (Returned tt, store u (retained cfg now dq) h).
Proof.
  intros E. unfold _cleanup_window, bind.
  rewrite (contains_Some _ _ _ E), (getitem_Some _ _ _ E). simpl.
  fold (retained cfg now dq).
  rewrite (getitem_Some _ u (retained cfg now dq)) by apply lookup_insert_eq.
  unfold store. destruct (retained cfg now dq) as [|t rest]; simpl.
  - unfold delitem. rewrite lookup_insert_eq, delete_insert_eq. reflexivity.
  - reflexivity.
Qed.

Lemma sw_can_send_absent h u now :
  h !! u = None ->
  can_send_message cfg u now h = (Raised (KeyError u), h).
Proof.
  intros E. unfold can_send_message, bind.
  rewrite (sw_cleanup_absent _ _ _ E). reflexivity.
Qed.

Lemma sw_can_send_present h u now dq :
  h !! u = Some dq ->
  can_send_message cfg u now h
  = (Returned (admits cfg (retained cfg now dq)), store u (retained cfg now dq) h).
Proof.
  intros E. unfold can_send_message, bind.
  rewrite (sw_cleanup_present _ _ _ _ E).
  pose proof (store_lookup u (retained cfg now dq) h) as L.
  destruct (retained cfg now dq) as [|t rest].
  - rewrite (contains_None _ _ L). reflexivity.
  - rewrite (contains_Some _ _ _ L), (getitem_Some _ _ _ L). reflexivity.
Qed.

Lemma sw_time_until_absent h u now :
  h !! u = None ->
  time_until_next_allowed cfg u now h = (Raised (KeyError u), h).
Proof.
  intros E. unfold time_until_next_allowed, bind.
  rewrite (sw_cleanup_absent _ _ _ E). reflexivity.
Qed.

Lemma sw_time_until_present h u now dq :
  h !! u = Some dq ->
  time_until_next_allowed cfg u now h
  = (Returned
       match last (retained cfg now dq) with
       | Some t => py_max 0 (inject_Z (window_size cfg) - (now - t))
       | None => 0
       end,
     store u (retained cfg now dq) h).
Proof.
  intros E. unfold time_until_next_allowed, bind.
  rewrite (sw_cleanup_present _ _ _ _ E).
  pose proof (store_lookup u (retained cfg now dq) h) as L.
  destruct (retained cfg now dq) as [|t rest] eqn:R.
  - rewrite (contains_None _ _ L). reflexivity.
  - rewrite (contains_Some _ _ _ L), (getitem_Some _ _ _ L).
    unfold newest. destruct (last (t :: rest)) as [t'|] eqn:El.
    + reflexivity.
    + apply last_None in El. discriminate.
Qed.

(** C4. [record_message] runs [can_send_message] and follows its answer:
    on [True] it appends its own clock reading to the user's deque, a new
    one if the check left none, and returns [True]; on [False] it returns
    [False] and the history is the one the check left, nothing appended; an
    exception of the check is passed on. *)
Theorem sw_record_message_follows_check h u current_time check_time :
  match can_send_message cfg u check_time h with
  | (Returned true, h') =>
      record_message cfg u current_time check_time h
      = (Returned true, <[u := default [] (h' !! u) ++ [current_time]]> h')
  | (Returned false, h') =>
      record_message cfg u current_time check_time h = (Returned false, h')
  | (Raised e, h') =>
      record_message cfg u current_time check_time h = (Raised e, h')
  end.
Proof.
  unfold record_message, bind.
  destruct (can_send_message cfg u check_time h) as [[[|]|e] h']; try reflexivity.
  destruct (h' !! u) as [dq|] eqn:E.
  - rewrite (contains_Some _ _ _ E). simpl.
    rewrite (getitem_Some _ _ _ E). reflexivity.
  - rewrite (contains_None _ _ E). simpl.
    rewrite (getitem_Some (<[u := []]> h') u []) by apply lookup_insert_eq.
    unfold setitem. rewrite insert_insert_eq. reflexivity.
Qed.

Lemma sw_record_absent h u current_time check_time :
  h !! u = None ->
  record_message cfg u current_time check_time h = (Raised (KeyError u), h).
Proof.
  intros E. unfold record_message, bind.
  rewrite (sw_can_send_absent _ _ _ E). reflexivity.
Qed.

Lemma sw_record_present h u current_time check_time dq :
  h !! u = Some dq ->
  record_message cfg u current_time check_time h
  = if admits cfg (retained cfg check_time dq)
    then (Returned true, <[u := retained cfg check_time dq ++ [current_time]]> h)
    else (Returned false, store u (retained cfg check_time dq) h).
Proof.
  intros E. unfold record_message, bind.
  rewrite (sw_can_send_present _ _ _ _ E).
  destruct (admits cfg (retained cfg check_time dq)); [| reflexivity].
  pose proof (store_lookup u (retained cfg check_time dq) h) as L.
  destruct (retained cfg check_time dq) as [|t rest]; cbv beta iota.
  - rewrite (contains_None _ _ L). simpl.
    rewrite (getitem_Some (<[u := []]> (store u [] h)) u [])
      by apply lookup_insert_eq.
    unfold setitem, store. simpl.
    rewrite insert_insert_eq, insert_delete_eq. reflexivity.
  - rewrite (contains_Some _ _ _ L). simpl.
    rewrite (getitem_Some _ _ _ L).
    unfold setitem, store. simpl. rewrite insert_insert_eq. reflexivity.
Qed.

(** C1. For a user without an entry, each of the three methods of the
    sliding-window limiter raises [KeyError] and leaves the history as it
    was. *)
Theorem sw_unknown_user_raises h u t t' :
  h !! u = None ->
  can_send_message cfg u t h = (Raised (KeyError u), h) /\
  record_message cfg u t t' h = (Raised (KeyError u), h) /\
  time_until_next_allowed cfg u t h = (Raised (KeyError u), h).
Proof.
  intros E. split; [| split].
  - apply sw_can_send_absent, E.
  - apply sw_record_absent, E.
  - apply sw_time_until_absent, E.
Qed.

End SlidingWindowFacts.

Lemma sw_unknown_user_raises_witness :
  SlidingWindow.can_send_message SlidingWindow.default_config "1" 0 SlidingWindow.init
  = (Raised (KeyError "1"), SlidingWindow.init) /\
  SlidingWindow.record_message SlidingWindow.default_config "1" 0 0 SlidingWindow.init
  = (Raised (KeyError "1"), SlidingWindow.init) /\
  SlidingWindow.time_until_next_allowed SlidingWindow.default_config "1" 0 SlidingWindow.init
  = (Raised (KeyError "1"), SlidingWindow.init).
Proof.
  apply (sw_unknown_user_raises SlidingWindow.default_config SlidingWindow.init "1" 0 0).
  reflexivity.
Defined.

(** The throttling limiter treats a user without an entry as a user
    without history: each method returns. *)
Lemma th_unknown_user_returns (min_interval : Q) (h : Throttling.history)
  (u : string) (t t' : Q) :
  h !! u = None ->
  Throttling.can_send_message min_interval u t h = (Returned true, h) /\
  Throttling.record_message min_interval u t t' h = (Returned true, <[u := t']> h) /\
  Throttling.time_until_next_allowed min_interval u t h = (Returned 0, h).
Proof.
  intros E. split; [| split].
  - apply th_can_send_absent, E.
  - apply th_record_accepted, th_can_send_absent, E.
  - apply th_time_until_absent, E.
Qed.

(** C2. On a new limiter, [can_send_message] for a user who never sent a
    message raises [KeyError] instead of returning [True]. *)
Theorem sw_can_send_message_new_limiter :
  SlidingWindow.can_send_message SlidingWindow.default_config "A" 0 SlidingWindow.init
  = (Raised (KeyError "A"), SlidingWindow.init).
Proof. reflexivity. Qed.

(** C3. The scenario window 10 s, one message per window, on a new limiter:
    the message at [0] is not accepted, the call raises [KeyError]; so do the
    second attempt at [5] and the attempt at [11], and no message is ever
    stored. *)
Theorem sw_record_message_new_limiter :
  run (SlidingWindow.exec (SlidingWindow.Config 10 1))
    [Record "A" 0 0; Record "A" 5 5; Record "A" 11 11] SlidingWindow.init
  = ([Raised (KeyError "A"); Raised (KeyError "A"); Raised (KeyError "A")],
     SlidingWindow.init).
Proof. reflexivity. Qed.

(** C5. On a new limiter, [time_until_next_allowed] for a user without
    history raises [KeyError] instead of returning [0]. *)
Theorem sw_time_until_next_allowed_new_limiter :
  SlidingWindow.time_until_next_allowed SlidingWindow.default_config "A" 5
    SlidingWindow.init
  = (Raised (KeyError "A"), SlidingWindow.init).
Proof. reflexivity. Qed.

(** ** SlidingWindowRateLimiter: the shape of the stored deques *)




Section CleanupLoop.
Import SlidingWindow.
Implicit Types (dq : list Q) (bound : Q).












End CleanupLoop.


(** A new limiter is well formed at any clock reading. *)
Lemma sw_init_well_formed (clk : Q) :
  SlidingWindow.well_formed clk SlidingWindow.init.
Proof. apply map_Forall_empty. Qed.

(** The history the scenario above ends with. *)
Example sw_history_invariant_scenario :
  snd (run (SlidingWindow.exec (SlidingWindow.Config 10 2))
         [Record "A" 5 5; CanSend "A" 12] {[ "A" := [0] ]})
  = {[ "A" := [5] ]}.
Proof. vm_compute. reflexivity. Qed.

(** ** Users do not see each other *)

Section Independence.
Context {V : Type}.
Variable exec : call -> M (gmap string V) value.

(** A call touches the entry of its own user only, *)
Hypothesis exec_frame : forall c (h : gmap string V) (B : string),
  call_user c <> B -> snd (exec c h) !! B = h !! B.

(** and its outcome and the entry it leaves depend on that entry only. *)
Hypothesis exec_local : forall c (h1 h2 : gmap string V),
  h1 !! call_user c = h2 !! call_user c ->
  fst (exec c h1) = fst (exec c h2) /\
  snd (exec c h1) !! call_user c = snd (exec c h2) !! call_user c.

Lemma run_projection (B : string) (cs : list call) :
  forall h1 h2 : gmap string V,
    h1 !! B = h2 !! B ->
    outcomes_of B cs (fst (run exec cs h1)) = fst (run exec (calls_of B cs) h2) /\
    snd (run exec cs h1) !! B = snd (run exec (calls_of B cs) h2) !! B.
Proof.
  induction cs as [|c cs IH]; intros h1 h2 Heq; [split; [reflexivity | exact Heq] |].
  unfold calls_of in *. rewrite filter_cons. simpl.
  destruct (decide (call_user c = B)) as [HB | HB].
  - simpl. rewrite <- HB in Heq.
    destruct (exec_local c h1 h2 Heq) as [Hr Hs].
    destruct (exec c h1) as [r1 k1], (exec c h2) as [r2 k2]. simpl in Hr, Hs.
    rewrite HB in Hs. specialize (IH k1 k2 Hs).
    destruct (run exec cs k1) as [rs1 m1],
             (run exec (filter (fun c => call_user c = B) cs) k2) as [rs2 m2].
    simpl in *. destruct IH as [IHr IHs]. split; [congruence | exact IHs].
  - pose proof (exec_frame c h1 B HB) as Hf.
    destruct (exec c h1) as [r1 k1]. simpl in Hf.
    assert (k1 !! B = h2 !! B) as Hk by congruence.
    specialize (IH k1 h2 Hk).
    destruct (run exec cs k1) as [rs1 m1]. simpl in *. exact IH.
Qed.

Lemma calls_of_without (A B : string) (cs : list call) :
  A <> B -> calls_of B (without A cs) = calls_of B cs.
Proof.
  intros Hne. unfold calls_of, without.
  induction cs as [|c cs IH]; [reflexivity |].
  rewrite !filter_cons.
  destruct (decide (call_user c <> A)) as [HA | HA].
  - rewrite filter_cons. destruct (decide (call_user c = B)); congruence.
  - destruct (decide (call_user c = B)) as [HB | HB]; [| exact IH].
    exfalso. apply HA. congruence.
Qed.

(** Dropping the calls made for [A] changes nothing for [B]. *)
Lemma run_without (A B : string) (cs : list call) (h : gmap string V) :
  A <> B ->
  outcomes_of B cs (fst (run exec cs h))
  = outcomes_of B (without A cs) (fst (run exec (without A cs) h)) /\
  snd (run exec cs h) !! B = snd (run exec (without A cs) h) !! B.
Proof.
  intros Hne.
  destruct (run_projection B cs h h eq_refl) as [Hr Hs].
  destruct (run_projection B (without A cs) h h eq_refl) as [Hr' Hs'].
  rewrite (calls_of_without A B cs Hne) in Hr', Hs'.
  split; congruence.
Qed.

End Independence.

Section SlidingWindowIndependence.
Import SlidingWindow.
Variable cfg : config.

Lemma sw_exec_frame c (h : history) (B : string) :
  call_user c <> B -> snd (exec cfg c h) !! B = h !! B.
Proof.
  intros Hne.
  destruct c as [u t | u t1 t2 | u t]; simpl in *; unfold as_bool, as_time;
    destruct (h !! u) as [dq|] eqn:E.
  - rewrite (sw_can_send_present _ _ _ _ _ E). simpl.
    apply store_lookup_ne, Hne.
  - rewrite (sw_can_send_absent _ _ _ _ E). reflexivity.
  - rewrite (sw_record_present _ _ _ _ _ _ E).
    destruct (admits cfg (retained cfg t2 dq)); simpl.
    + apply lookup_insert_ne, Hne.
    + apply store_lookup_ne, Hne.
  - rewrite (sw_record_absent _ _ _ _ _ E). reflexivity.
  - rewrite (sw_time_until_present _ _ _ _ _ E). simpl.
    apply store_lookup_ne, Hne.
  - rewrite (sw_time_until_absent _ _ _ _ E). reflexivity.
Qed.

Lemma sw_exec_local c (h1 h2 : history) :
  h1 !! call_user c = h2 !! call_user c ->
  fst (exec cfg c h1) = fst (exec cfg c h2) /\
  snd (exec cfg c h1) !! call_user c = snd (exec cfg c h2) !! call_user c.
Proof.
  intros Heq.
  destruct c as [u t | u t1 t2 | u t]; simpl in *; unfold as_bool, as_time;
    destruct (h1 !! u) as [dq|] eqn:E1; symmetry in Heq.
  - rewrite (sw_can_send_present _ _ _ _ _ E1), (sw_can_send_present _ _ _ _ _ Heq).
    simpl. rewrite !store_lookup. split; reflexivity.
  - rewrite (sw_can_send_absent _ _ _ _ E1), (sw_can_send_absent _ _ _ _ Heq).
    simpl. split; congruence.
  - rewrite (sw_record_present _ _ _ _ _ _ E1), (sw_record_present _ _ _ _ _ _ Heq).
    destruct (admits cfg (retained cfg t2 dq)); simpl.
    + rewrite !lookup_insert_eq. split; reflexivity.
    + rewrite !store_lookup. split; reflexivity.
  - rewrite (sw_record_absent _ _ _ _ _ E1), (sw_record_absent _ _ _ _ _ Heq).
    simpl. split; congruence.
  - rewrite (sw_time_until_present _ _ _ _ _ E1), (sw_time_until_present _ _ _ _ _ Heq).
    simpl. rewrite !store_lookup. split; reflexivity.
  - rewrite (sw_time_until_absent _ _ _ _ E1), (sw_time_until_absent _ _ _ _ Heq).
    simpl. split; congruence.
Qed.

End SlidingWindowIndependence.

Section ThrottlingIndependence.
Import Throttling.
Variable min_interval : Q.

Lemma th_record_absent (h : history) u check_time now :
  h !! u = None ->
  record_message min_interval u check_time now h = (Returned true, <[u := now]> h).
Proof. intros E. apply th_record_accepted, th_can_send_absent, E. Qed.

Lemma th_record_present (h : history) u check_time now last :
  h !! u = Some last ->
  record_message min_interval u check_time now h
  = if Qle_bool min_interval (check_time - last)
    then (Returned true, <[u := now]> h)
    else (Returned false, h).
Proof.
  intros E. pose proof (th_can_send_present min_interval h u check_time last E) as C.
  destruct (Qle_bool min_interval (check_time - last)).
  - apply th_record_accepted, C.
  - apply th_record_rejected, C.
Qed.

Lemma th_exec_frame c (h : history) (B : string) :
  call_user c <> B -> snd (exec min_interval c h) !! B = h !! B.
Proof.
  intros Hne.
  destruct c as [u t | u t1 t2 | u t]; simpl in *; unfold as_bool, as_time;
    destruct (h !! u) as [last|] eqn:E.
  - rewrite (th_can_send_present _ _ _ _ _ E). reflexivity.
  - rewrite (th_can_send_absent _ _ _ _ E). reflexivity.
  - rewrite (th_record_present _ _ _ _ _ E).
    destruct (Qle_bool min_interval (t1 - last)); simpl; [| reflexivity].
    apply lookup_insert_ne, Hne.
  - rewrite (th_record_absent _ _ _ _ E). simpl. apply lookup_insert_ne, Hne.
  - rewrite (th_time_until_present _ _ _ _ _ E). reflexivity.
  - rewrite (th_time_until_absent _ _ _ _ E). reflexivity.
Qed.

Lemma th_exec_local c (h1 h2 : history) :
  h1 !! call_user c = h2 !! call_user c ->
  fst (exec min_interval c h1) = fst (exec min_interval c h2) /\
  snd (exec min_interval c h1) !! call_user c
  = snd (exec min_interval c h2) !! call_user c.
Proof.
  intros Heq.
  destruct c as [u t | u t1 t2 | u t]; simpl in *; unfold as_bool, as_time;
    destruct (h1 !! u) as [last|] eqn:E1; symmetry in Heq.
  - rewrite (th_can_send_present _ _ _ _ _ E1), (th_can_send_present _ _ _ _ _ Heq).
    simpl. split; congruence.
  - rewrite (th_can_send_absent _ _ _ _ E1), (th_can_send_absent _ _ _ _ Heq).
    simpl. split; congruence.
  - rewrite (th_record_present _ _ _ _ _ E1), (th_record_present _ _ _ _ _ Heq).
    destruct (Qle_bool min_interval (t1 - last)); simpl.
    + rewrite !lookup_insert_eq. split; reflexivity.
    + split; congruence.
  - rewrite (th_record_absent _ _ _ _ E1), (th_record_absent _ _ _ _ Heq).
    simpl. rewrite !lookup_insert_eq. split; reflexivity.
  - rewrite (th_time_until_present _ _ _ _ _ E1), (th_time_until_present _ _ _ _ _ Heq).
    simpl. split; congruence.
  - rewrite (th_time_until_absent _ _ _ _ E1), (th_time_until_absent _ _ _ _ Heq).
    simpl. split; congruence.
Qed.

End ThrottlingIndependence.

(** C9. For both limiters and two different users [A] and [B]: taking the
    calls made for [A] out of a trace changes neither the outcome of any
    call made for [B] nor the entry of [B] at the end, whatever the calls
    for [A] were. *)
Theorem users_independent (A B : string) (cs : list call) :
  A <> B ->
  (forall cfg (h : SlidingWindow.history),
      outcomes_of B cs (fst (run (SlidingWindow.exec cfg) cs h))
      = outcomes_of B (without A cs)
          (fst (run (SlidingWindow.exec cfg) (without A cs) h)) /\
      snd (run (SlidingWindow.exec cfg) cs h) !! B
      = snd (run (SlidingWindow.exec cfg) (without A cs) h) !! B) /\
  (forall min_interval (h : Throttling.history),
      outcomes_of B cs (fst (run (Throttling.exec min_interval) cs h))
      = outcomes_of B (without A cs)
          (fst (run (Throttling.exec min_interval) (without A cs) h)) /\
      snd (run (Throttling.exec min_interval) cs h) !! B
      = snd (run (Throttling.exec min_interval) (without A cs) h) !! B).
Proof.
  intros Hne. split.
  - intros cfg h. apply run_without; [| | exact Hne].
    + intros c k C. apply sw_exec_frame.
    + intros c k1 k2. apply sw_exec_local.
  - intros min_interval h. apply run_without; [| | exact Hne].
    + intros c k C. apply th_exec_frame.
    + intros c k1 k2. apply th_exec_local.
Qed.

Lemma users_independent_witness :
  let cs := [Record "B" 0 0; Record "A" 1 1; Record "A" 2 2; CanSend "B" 3;
             Record "A" 3 3; Record "B" 12 12] in
  (forall cfg (h : SlidingWindow.history),
      outcomes_of "B" cs (fst (run (SlidingWindow.exec cfg) cs h))
      = outcomes_of "B" (without "A" cs)
          (fst (run (SlidingWindow.exec cfg) (without "A" cs) h)) /\
      snd (run (SlidingWindow.exec cfg) cs h) !! "B"
      = snd (run (SlidingWindow.exec cfg) (without "A" cs) h) !! "B") /\
  (forall min_interval (h : Throttling.history),
      outcomes_of "B" cs (fst (run (Throttling.exec min_interval) cs h))
      = outcomes_of "B" (without "A" cs)
          (fst (run (Throttling.exec min_interval) (without "A" cs) h)) /\
      snd (run (Throttling.exec min_interval) cs h) !! "B"
      = snd (run (Throttling.exec min_interval) (without "A" cs) h) !! "B").
Proof.
  intros cs. apply (users_independent "A" "B" cs). discriminate.
Defined.

(** Saturating the window of ["A"] leaves the answers for ["B"] as they
    are without ["A"]. *)
Example sw_saturation_scenario :
  let cfg := SlidingWindow.Config 10 1 in
  let h : SlidingWindow.history := {[ "A" := [0]; "B" := [0] ]} in
  fst (run (SlidingWindow.exec cfg)
         [Record "A" 11 11; Record "A" 12 12; Record "B" 13 13] h)
  = [Returned (VBool true); Returned (VBool false); Returned (VBool true)] /\
  fst (run (SlidingWindow.exec cfg) [Record "B" 13 13] h)
  = [Returned (VBool true)].
Proof. vm_compute. split; reflexivity. Qed.

(** ** SlidingWindowRateLimiter: what a new limiter does, and the window
    bound on histories that know the user *)

(** X19. On a new limiter every call raises [KeyError] and the history
    stays empty: no message is ever stored. *)
Lemma sw_new_limiter_stays_empty (cfg : SlidingWindow.config) (cs : list call) :
  run (SlidingWindow.exec cfg) cs SlidingWindow.init
  = (map (fun c => Raised (KeyError (call_user c))) cs, SlidingWindow.init).
Proof.
  induction cs as [|c cs IH]; [reflexivity |].
  assert (SlidingWindow.exec cfg c SlidingWindow.init
          = (Raised (KeyError (call_user c)), SlidingWindow.init)) as Hc.
  { destruct c as [u t | u t1 t2 | u t]; simpl; unfold as_bool, as_time.
    - rewrite sw_can_send_absent by apply lookup_empty. reflexivity.
    - rewrite sw_record_absent by apply lookup_empty. reflexivity.
    - rewrite sw_time_until_absent by apply lookup_empty. reflexivity. }
  simpl. rewrite Hc, IH. reflexivity.
Qed.

Section Counting.
Implicit Types (p q : Q -> bool) (ts : list Q).






End Counting.

Section WindowBound.
Import SlidingWindow.
Variable cfg : config.
Variable user : string.
Hypothesis positive_limit : (1 <= max_requests cfg)%Z.
Implicit Types (h : history) (dq acc : list Q).




Lemma admits_length dq :
  admits cfg dq = true -> (Z.of_nat (length dq) + 1 <= max_requests cfg)%Z.
Proof.
  destruct dq as [|t rest]; simpl.
  - intros _. lia.
  - intros Hlt. apply Z.ltb_lt in Hlt. lia.
Qed.






End WindowBound.

(** The two clock readings of [record_message] matter: the stored time
    stamp is read before the one the eviction uses. With a window of 10 s
    and one message per window, messages stamped [0] and [9.99] are both
    accepted when the check of the second one reads [10.01]. *)
Example sw_two_readings_scenario :
  fst (run (SlidingWindow.exec (SlidingWindow.Config 10 1))
         [Record "A" 0 0; Record "A" (999 # 100) (1001 # 100)]
         {[ "A" := [-20] ]})
  = [Returned (VBool true); Returned (VBool true)].
Proof. vm_compute. reflexivity. Qed.

(** * Further properties of the code *)

(** ** SlidingWindowRateLimiter: eviction *)

Section Eviction.
Import SlidingWindow.
Variable cfg : config.
Implicit Types (h : history) (u : string) (dq : list Q).










End Eviction.

(** ** SlidingWindowRateLimiter: how calls compose *)

Section Composition.
Import SlidingWindow.
Variable cfg : config.
Implicit Types (h : history) (u : string) (dq : list Q).


Lemma cleanup_loop_length dq bound :
  (length (cleanup_loop dq bound) <= length dq)%nat.
Proof.
  induction dq as [|t dq IH]; simpl; [lia |].
  destruct (Qltb t bound); simpl; lia.
Qed.







(** X6. With [max_requests >= 1] the stored deques never outgrow
    [max_requests]: if no deque of the history is longer than
    [max_requests], none is after any sequence of calls, whatever the clock
    reads. *)
Theorem sw_capacity_invariant h cs :
  (1 <= max_requests cfg)%Z ->
  within_capacity cfg h ->
  within_capacity cfg (snd (run (exec cfg) cs h)).
Proof.
  intros Hm. revert h. induction cs as [|c cs IH]; intros h Hcap; [exact Hcap |].
  assert (within_capacity cfg (snd (exec cfg c h))) as Hstep.
  { assert (forall u dq now, h !! u = Some dq ->
              within_capacity cfg (store u (retained cfg now dq) h)) as Hstore.
    { intros u dq now E. unfold store.
      destruct (retained cfg now dq) as [|x rest] eqn:R; simpl.
      - apply map_Forall_delete, Hcap.
      - apply map_Forall_insert_2; [| exact Hcap].
        rewrite <- R. pose proof (cleanup_loop_length dq
          (now - inject_Z (window_size cfg))) as Hlen.
        pose proof (Hcap u dq E). unfold retained. lia. }
    destruct c as [u t | u t1 t2 | u t]; simpl; unfold as_bool, as_time;
      destruct (h !! u) as [dq|] eqn:E.
    - rewrite (sw_can_send_present cfg _ _ _ _ E). simpl. apply Hstore, E.
    - rewrite (sw_can_send_absent cfg _ _ _ E). exact Hcap.
    - rewrite (sw_record_present cfg _ _ _ _ _ E).
      destruct (admits cfg (retained cfg t2 dq)) eqn:Hadm; simpl.
      + apply map_Forall_insert_2; [| exact Hcap].
        pose proof (admits_length cfg Hm _ Hadm). rewrite length_app. simpl. lia.
      + apply Hstore, E.
    - rewrite (sw_record_absent cfg _ _ _ _ E). exact Hcap.
    - rewrite (sw_time_until_present cfg _ _ _ _ E). simpl. apply Hstore, E.
    - rewrite (sw_time_until_absent cfg _ _ _ E). exact Hcap. }
  simpl. destruct (exec cfg c h) as [r h1]. simpl in Hstep.
  specialize (IH h1 Hstep). destruct (run (exec cfg) cs h1) as [rs h2]. exact IH.
Qed.




End Composition.

(** ** ThrottlingRateLimiter: traces *)

Section ThrottlingTraces.
Import Throttling.
#[local] Set Warnings "-clear-no-such-hyp".
Variable min_interval : Q.
Implicit Types (h : history) (u : string).



(** X11. The throttling limiter never deletes an entry and adds one for
    every user it records: after any sequence of calls the users with an
    entry are those who had one before and those for whom [record_message]
    was called. *)
Theorem th_entries_accumulate h cs :
  dom (snd (run (exec min_interval) cs h)) = dom h ∪ recorded_users cs.
Proof.
  revert h. induction cs as [|c cs IH]; intros h; simpl; [set_solver |].
  assert (dom (snd (exec min_interval c h)) = dom h ∪ recorded_users [c]) as Hstep.
  { destruct c as [u t | u t1 t2 | u t]; simpl; unfold as_bool, as_time;
      destruct (h !! u) as [last|] eqn:E.
    - rewrite (th_can_send_present _ _ _ _ _ E). set_solver.
    - rewrite (th_can_send_absent _ _ _ _ E). set_solver.
    - rewrite (th_record_present _ _ _ _ _ _ E).
      assert (u ∈ dom h) by (apply elem_of_dom; eauto).
      destruct (Qle_bool min_interval (t1 - last)); simpl.
      + rewrite dom_insert_L. set_solver.
      + set_solver.
    - rewrite (th_record_absent _ _ _ _ _ E). simpl.
      rewrite dom_insert_L. set_solver.
    - rewrite (th_time_until_present _ _ _ _ _ E). set_solver.
    - rewrite (th_time_until_absent _ _ _ _ E). set_solver. }
  destruct (exec min_interval c h) as [r h1]. simpl in Hstep.
  specialize (IH h1). destruct (run (exec min_interval) cs h1) as [rs h2].
  simpl in *. rewrite IH, Hstep.
  destruct c; simpl; set_solver.
Qed.

(** X12. No method of the throttling limiter raises: every call of every
    sequence of calls returns, from any history. *)
Theorem th_never_raises h cs :
  Forall (fun r => exists v, r = Returned v)
    (fst (run (exec min_interval) cs h)).
Proof.
  revert h. induction cs as [|c cs IH]; intros h; simpl; [constructor |].
  assert (exists v, fst (exec min_interval c h) = Returned v) as [v Hv].
  { destruct c as [u t | u t1 t2 | u t]; simpl; unfold as_bool, as_time;
      destruct (h !! u) as [last|] eqn:E.
    - rewrite (th_can_send_present _ _ _ _ _ E). eauto.
    - rewrite (th_can_send_absent _ _ _ _ E). eauto.
    - rewrite (th_record_present _ _ _ _ _ _ E).
      destruct (Qle_bool min_interval (t1 - last)); eauto.
    - rewrite (th_record_absent _ _ _ _ _ E). eauto.
    - rewrite (th_time_until_present _ _ _ _ _ E). eauto.
    - rewrite (th_time_until_absent _ _ _ _ E). eauto. }
  destruct (exec min_interval c h) as [r h1]. simpl in Hv. subst r.
  specialize (IH h1). destruct (run (exec min_interval) cs h1) as [rs h2].
  simpl in *. constructor; [eauto | exact IH].
Qed.



End ThrottlingTraces.

(** ** The demonstrations *)

(** X15. [test_rate_limiter] never gets past its first message: whatever
    the clock reads, the first [record_message], for user ["2"], raises
    [KeyError], no message line is printed and the history stays empty. *)
Theorem test_rate_limiter_raises (clock : nat -> readings) :
  test_rate_limiter clock = ([], Raised (KeyError "2"), SlidingWindow.init).
Proof.
  unfold test_rate_limiter, demo. cbn [seq demo_loop].
  unfold demo_message at 1. unfold bind at 1.
  rewrite sw_record_absent by reflexivity. reflexivity.
Qed.

Section ThrottlingDemo.
Variable clock : nat -> readings.

Lemma th_demo_message_new (h : Throttling.history) (i : nat) :
  h !! str (i mod 5 + 1) = None ->
  exists w,
    demo_message (Throttling.record_message 10)
      (Throttling.time_until_next_allowed 10) clock i h
    = (Returned (Line i (i mod 5 + 1) true w),
       <[str (i mod 5 + 1) := record_second (clock i)]> h).
Proof.
  intros E. unfold demo_message, bind.
  rewrite (th_record_absent _ _ _ _ _ E).
  rewrite (th_time_until_present 10 _ _ _ (record_second (clock i)))
    by apply lookup_insert_eq.
  eauto.
Qed.

Lemma th_demo_message_accepted (h : Throttling.history) (i : nat) (last : Q) :
  h !! str (i mod 5 + 1) = Some last ->
  10 <= record_first (clock i) - last ->
  exists w,
    demo_message (Throttling.record_message 10)
      (Throttling.time_until_next_allowed 10) clock i h
    = (Returned (Line i (i mod 5 + 1) true w),
       <[str (i mod 5 + 1) := record_second (clock i)]> h).
Proof.
  intros E Hle. unfold demo_message, bind.
  rewrite (th_record_present _ _ _ _ _ _ E).
  apply Qle_bool_iff in Hle. rewrite Hle.
  rewrite (th_time_until_present 10 _ _ _ (record_second (clock i)))
    by apply lookup_insert_eq.
  eauto.
Qed.

Lemma th_demo_message_rejected (h : Throttling.history) (i : nat) (last : Q) :
  h !! str (i mod 5 + 1) = Some last ->
  record_first (clock i) - last < 10 ->
  exists w,
    demo_message (Throttling.record_message 10)
      (Throttling.time_until_next_allowed 10) clock i h
    = (Returned (Line i (i mod 5 + 1) false w), h).
Proof.
  intros E Hlt. unfold demo_message, bind.
  rewrite (th_record_present _ _ _ _ _ _ E).
  assert (Qle_bool 10 (record_first (clock i) - last) = false) as ->.
  { destruct (Qle_bool 10 (record_first (clock i) - last)) eqn:Hq; [| reflexivity].
    apply Qle_bool_iff in Hq. lra. }
  rewrite (th_time_until_present _ _ _ _ _ E). eauto.
Qed.

(** A loop of the throttling demonstration ends normally and prints one
    line for each message number. *)
Lemma th_demo_loop_returns (ids : list nat) : forall h : Throttling.history,
  exists ls h',
    demo_loop (Throttling.record_message 10)
      (Throttling.time_until_next_allowed 10) clock ids h
    = (ls, Returned tt, h') /\
    map message_id ls = ids.
Proof.
  induction ids as [|i ids IH]; intros h; simpl; [eauto |].
  assert (exists b w h1,
    demo_message (Throttling.record_message 10)
      (Throttling.time_until_next_allowed 10) clock i h
    = (Returned (Line i (i mod 5 + 1) b w), h1)) as (b & w & h1 & ->).
  { destruct (h !! str (i mod 5 + 1)) as [last|] eqn:E.
    - destruct (Qlt_le_dec (record_first (clock i) - last) 10) as [Hlt | Hle].
      + destruct (th_demo_message_rejected h i last E Hlt) as [w ->]. eauto.
      + destruct (th_demo_message_accepted h i last E Hle) as [w ->]. eauto.
    - destruct (th_demo_message_new h i E) as [w ->]. eauto. }
  destruct (IH h1) as (ls & h' & -> & Hids).
  exists (Line i (i mod 5 + 1) b w :: ls), h'. simpl. rewrite Hids. eauto.
Qed.

(** X16. [test_throttling_limiter] runs to the end whatever the clock
    reads: no call raises, and it prints the lines of the messages 1 to 20,
    in this order. *)
Theorem test_throttling_limiter_returns :
  exists ls h,
    test_throttling_limiter clock = (ls, Returned tt, h) /\
    map message_id ls = seq 1 20.
Proof.
  unfold test_throttling_limiter, demo.
  destruct (th_demo_loop_returns (seq 1 10) Throttling.init)
    as (ls1 & h1 & -> & Hids1).
  destruct (th_demo_loop_returns (seq 11 10) h1) as (ls2 & h2 & -> & Hids2).
  exists (ls1 ++ ls2), h2. split; [reflexivity |].
  rewrite map_app, Hids1, Hids2. reflexivity.
Qed.

End ThrottlingDemo.




(** ** The properties above at concrete inputs *)







Lemma sw_capacity_invariant_witness :
  within_capacity (SlidingWindow.Config 10 2)
    (snd (run (SlidingWindow.exec (SlidingWindow.Config 10 2))
            [Record "A" 1 1; Record "A" 2 2; Record "A" 3 3] {[ "A" := [0] ]})).
Proof.
  apply (sw_capacity_invariant (SlidingWindow.Config 10 2) {[ "A" := [0] ]}
           [Record "A" 1 1; Record "A" 2 2; Record "A" 3 3]).
  - simpl. lia.
  - intros u dq E. apply lookup_singleton_Some in E as [_ <-]. simpl. lia.
Defined.








